(** * Enki: a C++11 test suite (src/enki.h), shallow embedding

    The header defines three things: the two exceptions a test body uses to
    end itself (TestFailedException, TestPassedException), the static
    assertion helpers of class Assert, and the class template TestCase<T>
    whose run() executes the scheduled tests; result exporters then print
    the stored TestData.

    C++ exceptions are modelled by an error monad over an explicit state:
    a computation takes the state and gives back either a value or the
    exception thrown, together with the state reached (side effects made
    before a throw persist through the unwinding). *)

From Stdlib Require Import List ZArith String Ascii Bool Arith Lia.
Import ListNotations.

Set Implicit Arguments.

(** ** Exceptions and the computation monad *)

(** The exceptions that can cross a test body.  [OtherException] stands for
    every exception that is neither of the two enki classes (std::exception
    and the like): run() has no handler for those. *)
Inductive exn : Type :=
| TestFailedException
| TestPassedException
| OtherException.

Inductive result (A : Type) : Type :=
| Normal (a : A)
| Throw (e : exn).

Arguments Normal {A} a.
Arguments Throw {A} e.

(** A statement or call acting on a state [S]. *)
Definition M (S A : Type) : Type := S -> result A * S.

Definition ret {S A : Type} (a : A) : M S A := fun s => (Normal a, s).

Definition throw {S A : Type} (e : exn) : M S A := fun s => (Throw e, s).

Definition bind {S A B : Type} (c : M S A) (k : A -> M S B) : M S B :=
  fun s =>
    match c s with
    | (Normal a, s') => k a s'
    | (Throw e, s') => (Throw e, s')
    end.

Declare Scope enki_scope.
Delimit Scope enki_scope with enki.
Notation "x <- c ;; k" := (bind c (fun x => k))
  (at level 61, c at next level, right associativity) : enki_scope.
Notation "c ;; k" := (bind c (fun _ => k))
  (at level 61, right associativity) : enki_scope.

(** [for (size_t t = 0; t < len; t++) body(t)] over the indices in [ts]. *)
Fixpoint for_ {S : Type} (ts : list nat) (body : nat -> M S unit) : M S unit :=
  match ts with
  | [] => ret tt
  | t :: ts' => (body t ;; for_ ts' body)%enki
  end.

(** ** class Assert *)

(** Assert::assert *)
Definition assert {S : Type} (condition : bool) : M S unit :=
  if negb condition then throw TestFailedException else ret tt.

(** Assert::assert_exception: [try { func(); } catch(...) { throw
    TestFailedException(); }]. *)
Definition assert_exception {S : Type} (func : M S unit) : M S unit :=
  fun s =>
    match func s with
    | (Normal _, s') => (Normal tt, s')
    | (Throw _, s') => (Throw TestFailedException, s')
    end.

Section Arrays.
(** The domain type of the arrays with its comparison operators. *)
Variable A : Type.
Variable ne : A -> A -> bool.   (* operator!= *)
Variable lt : A -> A -> bool.   (* operator<  *)
Variable gt : A -> A -> bool.   (* operator>  *)

(** An array is the list of its [len] elements.  A read [a[t]] inside the
    bounds gives the element; the loops below read only inside them. *)
Definition at_ (a : list A) (t : nat) : option A := nth_error a t.

(** Assert::assert_array_equals *)
Definition assert_array_equals {S : Type} (a b : list A) : M S unit :=
  let len_a := List.length a in
  let len_b := List.length b in
  (assert (Nat.eqb len_a len_b) ;;
   for_ (seq 0 len_a) (fun t =>
     match at_ a t, at_ b t with
     | Some x, Some y => if ne x y then throw TestFailedException else ret tt
     | _, _ => ret tt
     end))%enki.

(** Assert::assert_array_subdomain *)
Definition assert_array_subdomain {S : Type} (arr : list A) (min max : A)
  : M S unit :=
  let len_a := List.length arr in
  for_ (seq 0 len_a) (fun t =>
    match at_ arr t with
    | Some x => if lt x min || gt x max then throw TestFailedException
                else ret tt
    | None => ret tt
    end).
End Arrays.

(** ** class TestCase<T> *)

(** What a test body acts on: the fields of the derived class [T] and the
    reading of std::chrono::high_resolution_clock, in ticks.  A body that
    takes time leaves the clock advanced.  The list of TestData is a private
    member of TestCase<T>; the test bodies and hooks modelled here do not
    reach it (they do not call add(), get_data() or run() themselves). *)
Record Env (T : Type) : Type := mkEnv {
  self : T;
  ticks : Z
}.

(** high_resolution_clock::now() *)
Definition now {T : Type} (e : Env T) : Z := ticks e.

(** [typedef void (T::*TestFunc)()] *)
Definition TestFunc (T : Type) : Type := M (Env T) unit.

(** [struct _TestData].  [time] holds the tick count t2 - t1.  The source
    stores the conversion of this count to seconds,
    duration_cast<duration<float>>: a rescaling followed by rounding to
    float, which sends the count 0 to 0.0 and keeps the order of counts,
    but may send two close counts to the same value.  The count is kept
    here in place of the rounded number of seconds; the theorems on
    durations state what the conversion keeps. *)
Record TestData (T : Type) : Type := mkTestData {
  func : TestFunc T;
  name : string;
  passed : bool;
  time : Z
}.

Definition set_passed {T : Type} (b : bool) (d : TestData T) : TestData T :=
  mkTestData (func d) (name d) b (time d).

Definition set_time {T : Type} (t : Z) (d : TestData T) : TestData T :=
  mkTestData (func d) (name d) (passed d) t.

(** The virtual member functions a derived class may override. *)
Class TestCaseHooks (T : Type) : Type := {
  setup : TestFunc T;
  cleanup : TestFunc T
}.

(** The bodies of TestCase::setup and TestCase::cleanup themselves. *)
Definition default_hooks (T : Type) : TestCaseHooks T :=
  {| setup := ret tt; cleanup := ret tt |}.

(** An object of class TestCase<T>. *)
Record TestCase (T : Type) : Type := mkTestCase {
  env : Env T;
  data : list (TestData T)
}.

(** TestCase::add *)
Definition add {T : Type} (test : TestFunc T) (name : string)
  (tc : TestCase T) : TestCase T :=
  mkTestCase (env tc) (data tc ++ [mkTestData test name false 0%Z]).

(** TestCase::pass and TestCase::fail *)
Definition pass {T : Type} : TestFunc T := throw TestPassedException.
Definition fail {T : Type} : TestFunc T := throw TestFailedException.

(** TestCase::get_data *)
Definition get_data {T : Type} (tc : TestCase T) : list (TestData T) := data tc.

(** The calls run() makes, in the order it makes them.  This is a record of
    the execution kept beside it, which nothing in the code reads: a test is
    listed with its position in the list, the clock reading when it was
    called, how the call ended, and the clock reading at that point. *)
Inductive Call : Type :=
| CallSetup
| CallTest (i : nat) (t1 : Z) (r : result unit) (t2 : Z)
| CallCleanup.

Section Run.
Context {T : Type} {hooks : TestCaseHooks T}.

(** The try statement of the loop body, applied to the record [*it]: it
    gives the record as the statement leaves it and the value of [err], or
    the exception that no handler caught. *)
Definition try_test (d : TestData T) (err : bool)
  : M (Env T) (TestData T * bool) :=
  fun e =>
    let t1 := now e in
    match func d e with
    | (Normal _, e') =>
        let t2 := now e' in
        let d := set_time (t2 - t1) d in
        let d := set_passed true d in
        (Normal (d, err), e')
    | (Throw TestFailedException, e') =>
        (Normal (set_passed false d, true), e')
    | (Throw TestPassedException, e') =>
        (Normal (set_passed true d, err), e')
    | (Throw x, e') => (Throw x, e')
    end.

(** The for loop from the iterator position [it] (record number [i]) to
    data.end(): [it] is the list of records not yet visited, and the
    result carries them as the loop leaves them. *)
Fixpoint for_each (i : nat) (it : list (TestData T)) (err : bool) (e : Env T)
  : result bool * list (TestData T) * Env T * list Call :=
  match it with
  | [] => (Normal err, [], e, [])
  | d :: rest =>
      let call := CallTest i (now e) (fst (func d e)) (now (snd (func d e))) in
      match try_test d err e with
      | (Normal (d', err'), e') =>
          let '(r, rest', e'', calls) := for_each (S i) rest err' e' in
          (r, d' :: rest', e'', call :: calls)
      | (Throw x, e') => (Throw x, d :: rest, e', [call])
      end
  end.

(** TestCase::run *)
Definition run (tc : TestCase T) : result bool * TestCase T * list Call :=
  let err := false in
  match setup (env tc) with
  | (Throw x, e0) => (Throw x, mkTestCase e0 (data tc), [CallSetup])
  | (Normal _, e0) =>
      match for_each 0 (data tc) err e0 with
      | (Throw x, data', e1, calls) =>
          (Throw x, mkTestCase e1 data', CallSetup :: calls)
      | (Normal err, data', e1, calls) =>
          match cleanup e1 with
          | (Throw x, e2) =>
              (Throw x, mkTestCase e2 data',
               CallSetup :: calls ++ [CallCleanup])
          | (Normal _, e2) =>
              (Normal err, mkTestCase e2 data',
               CallSetup :: calls ++ [CallCleanup])
          end
      end
  end.
End Run.

(** The three values run() computes: what it returns (or the exception that
    leaves it), the object afterwards, and the calls it made. *)
Definition returned {T : Type} {hooks : TestCaseHooks T} (tc : TestCase T)
  : result bool := fst (fst (run tc)).

Definition after_run {T : Type} {hooks : TestCaseHooks T} (tc : TestCase T)
  : TestCase T := snd (fst (run tc)).

Definition calls_of {T : Type} {hooks : TestCaseHooks T} (tc : TestCase T)
  : list Call := snd (run tc).

(** A freshly constructed TestCase<T>, and a constructor body that schedules
    the tests [regs] by successive calls of add(). *)
Definition new_TestCase {T : Type} (e : Env T) : TestCase T := mkTestCase e [].

Definition add_all {T : Type} (regs : list (TestFunc T * string))
  (tc : TestCase T) : TestCase T :=
  fold_left (fun tc reg => add (fst reg) (snd reg) tc) regs tc.

(** ** Result exporters (text) *)

(** The ENKI_STYLE_* and ENKI_STR_* macros; the preprocessor picks one of
    two sets. *)
Record Style : Type := mkStyle {
  ENKI_STYLE_PASSED : string;
  ENKI_STYLE_FAILED : string;
  ENKI_STYLE_DEFAULT : string;
  ENKI_STR_PASSED : string;
  ENKI_STR_FAILED : string
}.

Definition ESC : string := String (ascii_of_nat 27) EmptyString.

(** [#if !defined(ENKI_STYLE_NOCOLORS) && !defined(__WIN32)] *)
Definition style_colors : Style :=
  mkStyle (ESC ++ "[32m;") (ESC ++ "[31m;") (ESC ++ "[0m;") "PASSED" "FAILED".

(** [#else] *)
Definition style_nocolors : Style :=
  mkStyle EmptyString EmptyString EmptyString "passed" "FAILED".

(** std::endl, as the characters it writes. *)
Definition endl : string := String (ascii_of_nat 10) EmptyString.

Fixpoint spaces (n : nat) : string :=
  match n with
  | O => EmptyString
  | S n' => String " " (spaces n')
  end.

(** An output stream is the text written to it so far.  [put] is
    [os << s]; [put_width w] is [os.width(w); os << s], which fills on the
    left with spaces up to [w] characters. *)
Definition put (os s : string) : string := os ++ s.

Definition put_width (w : nat) (os s : string) : string :=
  os ++ spaces (w - String.length s) ++ s.

(** A TextStreamResultExporter<T>: the flag of ResultExporter and the stream
    of StreamResultExporter. *)
Record TextStreamResultExporter : Type := mkExporter {
  export_test_durations : bool;
  os : string
}.

(** ResultExporter::is_duration_exported *)
Definition is_duration_exported (x : TextStreamResultExporter) : bool :=
  export_test_durations x.

Section TextExport.
Context {T : Type}.
Variable style : Style.
(** The characters [os << data.time] writes for a stored duration. *)
Variable show_time : Z -> string.

(** TextStreamResultExporter::export_result *)
Definition export_result (x : TextStreamResultExporter) (d : TestData T)
  : TextStreamResultExporter :=
  let os0 := os x in
  let os1 := put os0 "[" in
  let os1 := put os1 (if passed d
                      then ENKI_STYLE_PASSED style ++ ENKI_STR_PASSED style
                           ++ ENKI_STYLE_DEFAULT style
                      else ENKI_STYLE_FAILED style ++ ENKI_STR_FAILED style
                           ++ ENKI_STYLE_DEFAULT style) in
  let os1 := put os1 "] " in
  let os2 := if is_duration_exported x
             then put (put_width 8 os1 (show_time (time d))) "s "
             else os1 in
  let os3 := put (put os2 (name d)) endl in
  mkExporter (export_test_durations x) os3.

(** ResultExporter::export_results *)
Definition export_results (x : TextStreamResultExporter) (tcase : TestCase T)
  : TextStreamResultExporter :=
  fold_left export_result (get_data tcase) x.
End TextExport.

(** The line the format [[<PASSED|FAILED>] [<duration>s ]<name>] describes,
    written from the specification: the outcome word [w] in brackets, a
    space, the duration field [dur] (absent when [None]) closed by "s " and
    the name, ended by a newline. *)
Definition spec_line (w : string) (dur : option string) (nm : string)
  : string :=
  ("[" ++ w ++ "] "
   ++ match dur with Some f => f ++ "s " | None => EmptyString end
   ++ nm ++ endl)%string.

(** The parts of a line as export_result writes them: the outcome word is
    the colour sequence, ENKI_STR_PASSED or ENKI_STR_FAILED, and the sequence
    that restores the default colour; the duration field is the text of the
    duration, filled on the left to eight characters. *)
Definition outcome_word (style : Style) (p : bool) : string :=
  if p
  then ENKI_STYLE_PASSED style ++ ENKI_STR_PASSED style ++ ENKI_STYLE_DEFAULT style
  else ENKI_STYLE_FAILED style ++ ENKI_STR_FAILED style ++ ENKI_STYLE_DEFAULT style.

Definition duration_field (show_time : Z -> string) (t : Z) : string :=
  spaces (8 - String.length (show_time t)) ++ show_time t.

(** The text of several lines, one after the other. *)
Definition lines (ls : list string) : string :=
  fold_right String.append EmptyString ls.

(** ** Behaviours of test bodies *)

(** A body or hook that returns to its caller from every state. *)
Definition returns_normally {S : Type} (f : M S unit) : Prop :=
  forall s, fst (f s) = Normal tt.

(** A body that ends in one of the three ways run() provides for: it
    returns, or it throws one of the two enki exceptions. *)
Definition signals_only {S : Type} (f : M S unit) : Prop :=
  forall s, fst (f s) <> Throw OtherException.

(** What one iteration of the loop in run() leaves in the record [d] of a
    test that was called at clock reading [t1] and ended as [r] at clock
    reading [t2]. *)
Definition record_after {T : Type} (d : TestData T) (t1 : Z) (r : result unit)
  (t2 : Z) : TestData T :=
  match r with
  | Normal _ => mkTestData (func d) (name d) true (t2 - t1)
  | Throw TestFailedException => mkTestData (func d) (name d) false (time d)
  | Throw TestPassedException => mkTestData (func d) (name d) true (time d)
  | Throw OtherException => d
  end.

(** The call of test number [j], whatever its timing and ending. *)
Definition is_call_of (c : Call) (j : nat) : Prop :=
  exists t1 r t2, c = CallTest j t1 r t2.

(** Two arrays differ, under the comparison [ne] of their domain type, when
    their lengths do or when the elements at some index compare unequal. *)
Definition arrays_differ {A : Type} (ne : A -> A -> bool) (a b : list A)
  : Prop :=
  List.length a <> List.length b
  \/ exists t x y, nth_error a t = Some x /\ nth_error b t = Some y /\
                   ne x y = true.

(** ** The sample programs *)

(** std::this_thread::sleep_for, in clock ticks. *)
Definition sleep_for {T : Type} (d : Z) : TestFunc T :=
  fun e => (Normal tt, mkEnv (self e) (ticks e + d)).

(** samples/skeleton.cpp *)
Module SkeletonTestCase.
Definition hooks : TestCaseHooks unit := default_hooks unit.
Definition testPass : TestFunc unit := pass.
Definition testFailed : TestFunc unit := fail.
Definition testEmpty : TestFunc unit := ret tt.

Definition tcase (e : Env unit) : TestCase unit :=
  add_all [(testPass, "Test pass 1"%string);
           (testFailed, "Test fail 1"%string);
           (testPass, "Test pass 2"%string);
           (testEmpty, "Test empty"%string)] (new_TestCase e).
End SkeletonTestCase.

(** samples/assertions.cpp ([int] and [char] values as integers, one clock
    tick per nanosecond). *)
Module AssertTestCase.
Definition hooks : TestCaseHooks unit := default_hooks unit.

Definition int_ne (x y : Z) : bool := negb (Z.eqb x y).
(** The value of a [char], taken as signed (as on x86); the characters of
    the sample are below 128, where a signed and an unsigned char agree. *)
Definition char_value (c : ascii) : Z :=
  let n := Z.of_nat (nat_of_ascii c) in
  if (n <? 128)%Z then n else (n - 256)%Z.
Definition char_lt (x y : ascii) : bool := (char_value x <? char_value y)%Z.
Definition char_gt (x y : ascii) : bool := (char_value y <? char_value x)%Z.

Definition test_assert : TestFunc unit :=
  assert (Bool.eqb true (negb false)).

Definition test_assert_exception : TestFunc unit :=
  let f : TestFunc unit := throw OtherException in
  assert_exception f.

Definition test_assert_array_equals_pass : TestFunc unit :=
  assert_array_equals int_ne [1; 2; 3; 4; 5]%Z [1; 2; 3; 4; 5]%Z.

Definition test_assert_array_equals_fail : TestFunc unit :=
  assert_array_equals int_ne [1; 2; 3; 4; 5]%Z [1; 2; 3; 4; 6]%Z.

Definition test_assert_array_subdomain_pass : TestFunc unit :=
  assert_array_subdomain char_lt char_gt
    (list_ascii_of_string "abcdefghijklmnopqrstuvwxyz") "a"%char "z"%char.

Definition test_assert_array_subdomain_fail : TestFunc unit :=
  assert_array_subdomain char_lt char_gt
    (list_ascii_of_string "abcdefghijklmnopqrstuvwxy1") "a"%char "z"%char.

Definition test_wait_1s : TestFunc unit := sleep_for 666000000.

Definition tcase (e : Env unit) : TestCase unit :=
  add_all [(test_assert, "Assert::assert()"%string);
           (test_assert_exception, "Assert::assert_exception()"%string);
           (test_assert_array_equals_pass,
            "Assert::assert_array_equals() pass"%string);
           (test_assert_array_equals_fail,
            "Assert::assert_array_equals() fail"%string);
           (test_assert_array_subdomain_pass,
            "Assert::assert_array_subdomain() pass"%string);
           (test_assert_array_subdomain_fail,
            "Assert::assert_array_subdomain() fail"%string);
           (test_wait_1s, "Timing test, 666ms "%string)] (new_TestCase e).
End AssertTestCase.

(** Two further test cases, used to exercise the timing code of run(). *)
Module TimingTestCase.
Definition hooks : TestCaseHooks nat := default_hooks nat.

(** A test that works for five ticks and then calls fail(). *)
Definition slow_fail : TestFunc nat := (sleep_for 5 ;; fail)%enki.

(** A test whose behaviour depends on a member of the derived class: the
    member counts the calls; the first call works for five ticks and returns,
    every later call works for three ticks and calls fail(). *)
Definition once_ok : TestFunc nat :=
  fun e =>
    let n := self e in
    let e := mkEnv (S n) (ticks e) in
    match n with
    | O => sleep_for 5 e
    | S _ => (sleep_for 3 ;; fail)%enki e
    end.

(** A test that calls pass() before an assertion that does not hold. *)
Definition pass_first : TestFunc nat := (pass ;; assert false)%enki.

Definition start : Env nat := mkEnv 0%nat 100.

Definition tcase_pass_first : TestCase nat :=
  add pass_first "pass first" (new_TestCase start).

Definition tcase_slow_fail : TestCase nat :=
  add slow_fail "slow fail" (new_TestCase start).

Definition tcase_once_ok : TestCase nat :=
  add once_ok "once ok" (new_TestCase start).
End TimingTestCase.

(** A further test case: its second test lets an exception escape that is
    none of the two enki ones, and a variant of the hooks whose setup() does
    the same. *)
Module ThrowingTestCase.
Definition hooks : TestCaseHooks unit := default_hooks unit.


Definition test_ok : TestFunc unit := sleep_for 2.
Definition test_throws : TestFunc unit := (sleep_for 1 ;; throw OtherException)%enki.
Definition test_after : TestFunc unit := fail.

Definition tcase : TestCase unit :=
  add_all [(test_ok, "ok"%string);
           (test_throws, "throws"%string);
           (test_after, "after"%string)] (new_TestCase (mkEnv tt 0)).
End ThrowingTestCase.

(** ** Result exporters (XML) *)

(** The double quote, the tab and the newline of the string literals. *)
Definition dquote : string := String (ascii_of_nat 34) EmptyString.
Definition tab : string := String (ascii_of_nat 9) EmptyString.
Definition nl : string := String (ascii_of_nat 10) EmptyString.

(** An XMLStreamResultExporter<T>: the flag of ResultExporter and the stream
    of StreamResultExporter. *)
Record XMLStreamResultExporter : Type := mkXMLExporter {
  xml_export_test_durations : bool;
  xml_os : string
}.

(** The constructor: it writes the XML header to the stream. *)
Definition XMLStreamResultExporter_new (ostream : string) (export_time : bool)
  : XMLStreamResultExporter :=
  mkXMLExporter export_time
    (put ostream ("<?xml version=" ++ dquote ++ "1.0" ++ dquote
                  ++ " encoding=" ++ dquote ++ "utf-8" ++ dquote ++ "?>" ++ nl
                  ++ "<test-results>" ++ nl)).

(** The destructor: it writes the XML footer; what is left is the stream. *)
Definition XMLStreamResultExporter_delete (x : XMLStreamResultExporter)
  : string :=
  put (put (xml_os x) "</test-results>") endl.

Section XMLExport.
Context {T : Type}.
(** The characters [os << data.time] writes for a stored duration. *)
Variable show_time : Z -> string.

(** XMLStreamResultExporter::export_result *)
Definition xml_export_result (x : XMLStreamResultExporter) (d : TestData T)
  : XMLStreamResultExporter :=
  let os0 := xml_os x in
  let os1 := put os0 (tab ++ tab ++ "<test result=" ++ dquote) in
  let os1 := put os1 (if passed d then "passed" else "failed") in
  let os1 := put os1 dquote in
  let os2 := if xml_export_test_durations x
             then put (put (put os1 (" duration=" ++ dquote))
                         (show_time (time d))) dquote
             else os1 in
  let os3 := put os2 (" name=" ++ dquote) in
  let os3 := put os3 (name d) in
  let os3 := put os3 (dquote ++ "/>") in
  let os3 := put os3 endl in
  mkXMLExporter (xml_export_test_durations x) os3.

(** XMLStreamResultExporter::export_results *)
Definition xml_export_results (x : XMLStreamResultExporter)
  (tcase : TestCase T) : XMLStreamResultExporter :=
  let x1 := mkXMLExporter (xml_export_test_durations x)
              (put (xml_os x) (tab ++ "<test-case>" ++ nl)) in
  let x2 := fold_left xml_export_result (get_data tcase) x1 in
  mkXMLExporter (xml_export_test_durations x2)
    (put (xml_os x2) (tab ++ "</test-case>" ++ nl)).
End XMLExport.

(** The pieces of the XML output, written out: the header, the footer, the
    element of one record and the block of one test case. *)
Definition xml_header : string :=
  ("<?xml version=" ++ dquote ++ "1.0" ++ dquote ++ " encoding=" ++ dquote
   ++ "utf-8" ++ dquote ++ "?>" ++ nl ++ "<test-results>" ++ nl)%string.

Definition xml_footer : string := ("</test-results>" ++ nl)%string.

Definition xml_element (result : string) (dur : option string) (nm : string)
  : string :=
  (tab ++ tab ++ "<test result=" ++ dquote ++ result ++ dquote
   ++ match dur with
      | Some f => " duration=" ++ dquote ++ f ++ dquote
      | None => EmptyString
      end
   ++ " name=" ++ dquote ++ nm ++ dquote ++ "/>" ++ nl)%string.

Definition xml_block {T : Type} (show_time : Z -> string) (flag : bool)
  (tcase : TestCase T) : string :=
  (tab ++ "<test-case>" ++ nl
   ++ lines (map (fun d => xml_element (if passed d then "passed" else "failed")
                             (if flag then Some (show_time (time d)) else None)
                             (name d)) (data tcase))
   ++ tab ++ "</test-case>" ++ nl)%string.

(** ** Further behaviours of test bodies *)

(** A body whose way of ending does not depend on the state it starts in. *)
Definition outcome_fixed {S : Type} (f : M S unit) : Prop :=
  forall s s', fst (f s) = fst (f s').

(** A body during which the clock does not go backwards. *)
Definition clock_monotone {T : Type} (f : TestFunc T) : Prop :=
  forall e, (now e <= now (snd (f e)))%Z.

(** Some element of the array lies outside [min, max] under the comparisons
    [lt] and [gt] of the domain type. *)
Definition outside_subdomain {A : Type} (lt gt : A -> A -> bool)
  (arr : list A) (min max : A) : Prop :=
  exists t x, nth_error arr t = Some x /\ (lt x min || gt x max) = true.

(** ** run() as the sequence of its calls *)

(** The state after the test bodies of [ds] were called once each, one
    after the other in list order, each from the state the one before left
    (an exception ends a body, not the sequence). *)
Definition after_tests {T : Type} (ds : list (TestData T)) (e : Env T)
  : Env T :=
  fold_left (fun e d => snd (func d e)) ds e.

(** The calls of the test bodies of [ds], numbered from [i], the first made
    in the state [e] and each next one in the state the one before left. *)
Fixpoint test_calls {T : Type} (i : nat) (ds : list (TestData T)) (e : Env T)
  : list Call :=
  match ds with
  | [] => []
  | d :: rest =>
      CallTest i (now e) (fst (func d e)) (now (snd (func d e)))
      :: test_calls (S i) rest (snd (func d e))
  end.

(** A test case whose hooks and tests leave a trace in the object: the
    derived class keeps a journal, to which setup(), cleanup() and every
    test add a line (taking one clock tick); the second test then calls
    fail(), the third pass(). *)
Module FixtureTestCase.
Definition note (line : string) : TestFunc (list string) :=
  fun e => (Normal tt, mkEnv (self e ++ [line]) (ticks e + 1)).

Definition hooks : TestCaseHooks (list string) :=
  {| setup := note "setup"; cleanup := note "cleanup" |}.

Definition first : TestFunc (list string) := note "first".
Definition second : TestFunc (list string) := (note "second" ;; fail)%enki.
Definition third : TestFunc (list string) := (note "third" ;; pass)%enki.

Definition tcase : TestCase (list string) :=
  add_all [(first, "first"%string);
           (second, "second"%string);
           (third, "third"%string)] (new_TestCase (mkEnv [] 0)).
End FixtureTestCase.

(** A test case that mixes tests which return after some work with a test
    that fails; one test takes nine ticks when first called and four ticks
    on every later call (it counts its calls in a member). *)
Module MixedTestCase.
Definition hooks : TestCaseHooks nat := default_hooks nat.

Definition work : TestFunc nat := sleep_for 7.

Definition warm_up : TestFunc nat :=
  fun e =>
    let n := self e in
    let e := mkEnv (S n) (ticks e) in
    match n with
    | O => sleep_for 9 e
    | S _ => sleep_for 4 e
    end.

Definition tcase : TestCase nat :=
  add_all [(work, "work"%string);
           (warm_up, "warm up"%string);
           (TimingTestCase.slow_fail, "slow fail"%string);
           (work, "work again"%string)] (new_TestCase TimingTestCase.start).
End MixedTestCase.

(** * Properties *)

(** ** The loop of run() *)

Section LoopFacts.
Context {T : Type}.
Implicit Types (d : TestData T) (it : list (TestData T)) (e : Env T).

Ltac call_cases d e :=
  unfold try_test;
  let Hf := fresh "Hf" in
  destruct (func d e) as [[[] | []] ?e] eqn:Hf; cbn [fst snd].

Ltac loop_rest IH i err e :=
  let E := fresh "E" in
  specialize (IH i err e);
  destruct (for_each i _ err e) as [[[?r ?it'] ?e'] ?calls] eqn:E.

(** The loop writes to the fields [passed] and [time] only, and to no
    record beyond those it was given. *)
Lemma for_each_frame it : forall i err e r it' e' calls,
  for_each i it err e = (r, it', e', calls) ->
  map (@func T) it' = map (@func T) it /\ map (@name T) it' = map (@name T) it.
Proof.
  induction it as [| d rest IH]; intros i err e r it' e' calls H; simpl in H.
  - inversion H; subst; auto.
  - revert H; call_cases d e.
    + loop_rest IH (S i) err e0. intros H; inversion H; subst.
      destruct (IH _ _ _ _ eq_refl) as [IHf IHn]; simpl; split; congruence.
    + loop_rest IH (S i) true e0. intros H; inversion H; subst.
      destruct (IH _ _ _ _ eq_refl) as [IHf IHn]; simpl; split; congruence.
    + loop_rest IH (S i) err e0. intros H; inversion H; subst.
      destruct (IH _ _ _ _ eq_refl) as [IHf IHn]; simpl; split; congruence.
    + intros H; inversion H; subst; auto.
Qed.

(** Every call the loop makes is the call of the record at that position,
    from some state, and the loop leaves in that position the record the
    try statement produces. *)
Lemma for_each_calls it : forall i err e r it' e' calls,
  for_each i it err e = (r, it', e', calls) ->
  forall j t1 res t2, In (CallTest j t1 res t2) calls ->
  (i <= j)%nat /\
  exists d e0,
    nth_error it (j - i) = Some d /\
    res = fst (func d e0) /\ t1 = now e0 /\ t2 = now (snd (func d e0)) /\
    nth_error it' (j - i) = Some (record_after d t1 res t2).
Proof.
  induction it as [| d rest IH]; intros i err e r it' e' calls H j t1 res t2 Hin;
    simpl in H.
  - inversion H; subst; destruct Hin.
  - assert (Hlater : forall it1 d1,
               ((S i <= j)%nat /\
                exists d0 e0,
                  nth_error rest (j - S i) = Some d0 /\
                  res = fst (func d0 e0) /\ t1 = now e0 /\
                  t2 = now (snd (func d0 e0)) /\
                  nth_error it1 (j - S i) = Some (record_after d0 t1 res t2)) ->
               (i <= j)%nat /\
               exists d0 e0,
                 nth_error (d :: rest) (j - i) = Some d0 /\
                 res = fst (func d0 e0) /\ t1 = now e0 /\
                 t2 = now (snd (func d0 e0)) /\
                 nth_error (d1 :: it1) (j - i) = Some (record_after d0 t1 res t2)).
    { intros it1 d1 [Hle (d0 & e0 & H1 & H2 & H3 & H4 & H5)].
      split; [lia |]. exists d0, e0.
      replace (j - i)%nat with (S (j - S i)) by lia. simpl; auto. }
    revert H; call_cases d e; intros H.
    + loop_rest IH (S i) err e0. inversion H; subst.
      destruct Hin as [Heq | Hin].
      * inversion Heq; subst. rewrite Nat.sub_diag.
        split; [lia |]. exists d, e. rewrite Hf. simpl. auto.
      * apply Hlater. eapply IH; eauto.
    + loop_rest IH (S i) true e0. inversion H; subst.
      destruct Hin as [Heq | Hin].
      * inversion Heq; subst. rewrite Nat.sub_diag.
        split; [lia |]. exists d, e. rewrite Hf. simpl. auto.
      * apply Hlater. eapply IH; eauto.
    + loop_rest IH (S i) err e0. inversion H; subst.
      destruct Hin as [Heq | Hin].
      * inversion Heq; subst. rewrite Nat.sub_diag.
        split; [lia |]. exists d, e. rewrite Hf. simpl. auto.
      * apply Hlater. eapply IH; eauto.
    + inversion H; subst. destruct Hin as [Heq | []].
      inversion Heq; subst. rewrite Nat.sub_diag.
      split; [lia |]. exists d, e. rewrite Hf. simpl. auto.
Qed.

(** When the loop runs to data.end(), [err] is set exactly when some record
    it leaves behind is a failed one, and the calls are those of the records
    one after the other. *)
Lemma for_each_normal it : forall i err e err' it' e' calls,
  for_each i it err e = (Normal err', it', e', calls) ->
  err' = err || existsb (fun d => negb (passed d)) it' /\
  Forall2 is_call_of calls (seq i (List.length it)).
Proof.
  induction it as [| d rest IH]; intros i err e err' it' e' calls H; simpl in H.
  - inversion H; subst. rewrite orb_false_r. split; [reflexivity | constructor].
  - revert H; call_cases d e; intros H.
    + loop_rest IH (S i) err e0. inversion H; subst.
      destruct (IH _ _ _ _ eq_refl) as [-> HF]. split; [reflexivity |].
      constructor; [do 3 eexists; reflexivity | exact HF].
    + loop_rest IH (S i) true e0. inversion H; subst.
      destruct (IH _ _ _ _ eq_refl) as [-> HF]. split.
      * simpl. now rewrite orb_true_r.
      * constructor; [do 3 eexists; reflexivity | exact HF].
    + loop_rest IH (S i) err e0. inversion H; subst.
      destruct (IH _ _ _ _ eq_refl) as [-> HF]. split; [reflexivity |].
      constructor; [do 3 eexists; reflexivity | exact HF].
    + discriminate H.
Qed.

(** The loop runs to data.end() when every body ends in one of the three
    ways the try statement handles. *)
Lemma for_each_completes it : forall i err e,
  Forall (fun d => signals_only (func d)) it ->
  exists err' it' e' calls, for_each i it err e = (Normal err', it', e', calls).
Proof.
  induction it as [| d rest IH]; intros i err e Hall; simpl.
  - do 4 eexists; reflexivity.
  - inversion Hall as [| ? ? Hd Hrest]; subst.
    pose proof (Hd e) as Hde. revert Hde. call_cases d e; intros Hde.
    + destruct (IH (S i) err e0 Hrest) as (r & it' & e' & calls & ->).
      do 4 eexists; reflexivity.
    + destruct (IH (S i) true e0 Hrest) as (r & it' & e' & calls & ->).
      do 4 eexists; reflexivity.
    + destruct (IH (S i) err e0 Hrest) as (r & it' & e' & calls & ->).
      do 4 eexists; reflexivity.
    + congruence.
Qed.

(** An exception that leaves the loop is none of the two enki ones, and the
    loop has made at least the call that threw it. *)
Lemma for_each_throw it : forall i err e x it' e' calls,
  for_each i it err e = (Throw x, it', e', calls) ->
  x = OtherException /\ ~ In CallCleanup calls.
Proof.
  induction it as [| d rest IH]; intros i err e x it' e' calls H; simpl in H.
  - discriminate H.
  - revert H; call_cases d e; intros H.
    + loop_rest IH (S i) err e0. inversion H; subst.
      destruct (IH _ _ _ _ eq_refl) as [-> Hn]. split; [reflexivity |].
      intros [Hc | Hc]; [discriminate | auto].
    + loop_rest IH (S i) true e0. inversion H; subst.
      destruct (IH _ _ _ _ eq_refl) as [-> Hn]. split; [reflexivity |].
      intros [Hc | Hc]; [discriminate | auto].
    + loop_rest IH (S i) err e0. inversion H; subst.
      destruct (IH _ _ _ _ eq_refl) as [-> Hn]. split; [reflexivity |].
      intros [Hc | Hc]; [discriminate | auto].
    + inversion H; subst. split; [reflexivity |].
      intros [Hc | []]; discriminate.
Qed.
(** When the loop runs to data.end(), it has called every body once, in
    list order, each in the state the call before left. *)
Lemma for_each_normal_trace it : forall i err e err' it' e' calls,
  for_each i it err e = (Normal err', it', e', calls) ->
  calls = test_calls i it e /\ e' = after_tests it e.
Proof.
  unfold after_tests.
  induction it as [| d rest IH]; intros i err e err' it' e' calls H; simpl in H.
  - inversion H; subst. auto.
  - simpl. revert H; call_cases d e; intros H.
    + loop_rest IH (S i) err e0. inversion H; subst.
      destruct (IH _ _ _ _ eq_refl) as [-> ->]. auto.
    + loop_rest IH (S i) true e0. inversion H; subst.
      destruct (IH _ _ _ _ eq_refl) as [-> ->]. auto.
    + loop_rest IH (S i) err e0. inversion H; subst.
      destruct (IH _ _ _ _ eq_refl) as [-> ->]. auto.
    + discriminate H.
Qed.
End LoopFacts.

(** ** TestCase::add and TestCase::run *)

Section RunFacts.
Context {T : Type} {hooks : TestCaseHooks T}.
Implicit Types (tc : TestCase T) (d : TestData T).

(** Case analysis following the control flow of run(): setup() throws or
    returns, the loop is left by an exception or runs to the end, cleanup()
    throws or returns. *)
Ltac run_cases tc :=
  unfold returned, after_run, calls_of, run;
  let Hs := fresh "Hsetup" in
  let Hl := fresh "Hloop" in
  let Hc := fresh "Hcleanup" in
  destruct (setup (env tc)) as [[[] | ?x] ?e0] eqn:Hs;
  [ destruct (for_each 0 (data tc) false e0) as [[[[?err | ?x] ?it'] ?e1] ?calls] eqn:Hl;
    [ destruct (cleanup e1) as [[[] | ?x] ?e2] eqn:Hc | ]
  | ];
  cbn [fst snd data env].

Lemma add_all_data (regs : list (TestFunc T * string)) : forall tc,
  data (add_all regs tc)
  = data tc ++ map (fun reg => mkTestData (fst reg) (snd reg) false 0%Z) regs.
Proof.
  unfold add_all.
  induction regs as [| reg regs IH]; intros tc; simpl.
  - now rewrite app_nil_r.
  - rewrite IH. unfold add; simpl. now rewrite <- app_assoc.
Qed.

Lemma func_name_split (l l' : list (TestData T)) :
  map (@func T) l' = map (@func T) l ->
  map (@name T) l' = map (@name T) l ->
  map (fun d => (func d, name d)) l' = map (fun d => (func d, name d)) l.
Proof.
  revert l'; induction l as [| d l IH]; intros [| d' l'] Hf Hn;
    simpl in *; try discriminate; [reflexivity |].
  inversion Hf; inversion Hn. rewrite (IH l') by assumption. congruence.
Qed.

(** run() leaves the test function and the name of every record as they
    were, however it ends. *)
Lemma run_keeps_func_name tc :
  map (@func T) (data (after_run tc)) = map (@func T) (data tc) /\
  map (@name T) (data (after_run tc)) = map (@name T) (data tc).
Proof.
  run_cases tc; auto; destruct (for_each_frame _ _ _ _ Hloop) as [Hf Hn]; auto.
Qed.

Lemma run_keeps_schedule tc :
  map (fun d => (func d, name d)) (data (after_run tc))
  = map (fun d => (func d, name d)) (data tc).
Proof.
  destruct (run_keeps_func_name tc) as [Hf Hn]. now apply func_name_split.
Qed.

Lemma run_keeps_length tc :
  List.length (data (after_run tc)) = List.length (data tc).
Proof.
  destruct (run_keeps_func_name tc) as [Hf _].
  rewrite <- (length_map (@func T)), Hf. apply length_map.
Qed.

(** C10. run() neither adds nor removes a record and writes neither the
    test function nor the name of any record: the scheduled list of
    (function, name) pairs is the same before and after a run, however the
    run ends. *)
Theorem run_frame tc :
  List.length (data (after_run tc)) = List.length (data tc) /\
  map (@func T) (data (after_run tc)) = map (@func T) (data tc) /\
  map (@name T) (data (after_run tc)) = map (@name T) (data tc) /\
  map (fun d => (func d, name d)) (data (after_run tc))
  = map (fun d => (func d, name d)) (data tc).
Proof.
  split; [apply run_keeps_length |].
  split; [apply run_keeps_func_name |].
  split; [apply run_keeps_func_name | apply run_keeps_schedule].
Qed.

(** C4. After any sequence of add() calls on a new test case, run() leaves
    exactly one record per scheduled test, in the order of the add() calls;
    equal names are kept apart. *)
Theorem run_keeps_registration_order (regs : list (TestFunc T * string))
  (e : Env T) :
  let tc := add_all regs (new_TestCase e) in
  map (fun d => (func d, name d)) (data tc) = regs /\
  map (fun d => (func d, name d)) (data (after_run tc)) = regs /\
  List.length (data (after_run tc)) = List.length regs.
Proof.
  intros tc.
  assert (Hreg : map (fun d => (func d, name d)) (data tc) = regs).
  { unfold tc. rewrite add_all_data. simpl. rewrite map_map. simpl.
    clear. induction regs as [| [f n] regs IH]; simpl; congruence. }
  pose proof (run_keeps_schedule tc) as Hfn.
  split; [exact Hreg |]. split; [congruence |].
  rewrite run_keeps_length, <- Hreg. now rewrite length_map.
Qed.

(** C1. When the hooks return and every test body returns, calls fail() or
    calls pass(), run() returns, and it returns true exactly when some
    record it produced is a failed one; with no test scheduled it returns
    false. *)
Theorem run_returns_true_iff_failed tc :
  returns_normally setup ->
  returns_normally cleanup ->
  Forall (fun d => signals_only (func d)) (data tc) ->
  exists err,
    returned tc = Normal err /\
    (err = true <-> exists d, In d (data (after_run tc)) /\ passed d = false) /\
    (data tc = [] -> err = false).
Proof.
  intros Hsetup Hcleanup Hall. run_cases tc.
  - destruct (for_each_normal _ _ _ _ Hloop) as [Herr _]. simpl in Herr.
    exists err. split; [reflexivity |]. split.
    + rewrite Herr, existsb_exists. split.
      * intros (d & Hin & Hd). exists d. split; [exact Hin |].
        now destruct (passed d).
      * intros (d & Hin & Hd). exists d. split; [exact Hin |]. now rewrite Hd.
    + intros Hnil. rewrite Hnil in Hloop. simpl in Hloop. now inversion Hloop.
  - pose proof (Hcleanup e1) as Hc. rewrite Hcleanup0 in Hc. discriminate Hc.
  - destruct (for_each_completes 0 false e0 Hall) as (b & l & e' & cs & Hn).
    rewrite Hloop in Hn. discriminate Hn.
  - pose proof (Hsetup (env tc)) as Hs. rewrite Hsetup0 in Hs. discriminate Hs.
Qed.

(** C5. When setup() returns and every test body returns, calls fail() or
    calls pass(), the calls run() makes are: setup() once, then each
    scheduled test once in list order, then cleanup() once; a failed test
    changes none of this.  The calls are real ones: setup() runs in the
    state run() was entered in, every test in the state the call before it
    left, cleanup() in the state the last test left, and the object is
    afterwards in the state cleanup() left. *)
Theorem run_calls_setup_tests_cleanup tc :
  returns_normally setup ->
  Forall (fun d => signals_only (func d)) (data tc) ->
  exists tests,
    calls_of tc = CallSetup :: tests ++ [CallCleanup] /\
    Forall2 is_call_of tests (seq 0 (List.length (data tc))) /\
    tests = test_calls 0 (data tc) (snd (setup (env tc))) /\
    env (after_run tc)
    = snd (cleanup (after_tests (data tc) (snd (setup (env tc))))).
Proof.
  intros Hsetup Hall. run_cases tc.
  - destruct (for_each_normal_trace _ _ _ _ Hloop) as [Hcalls He1].
    exists calls. split; [reflexivity |].
    split; [now destruct (for_each_normal _ _ _ _ Hloop) |].
    split; [exact Hcalls |]. rewrite <- He1, Hcleanup. reflexivity.
  - destruct (for_each_normal_trace _ _ _ _ Hloop) as [Hcalls He1].
    exists calls. split; [reflexivity |].
    split; [now destruct (for_each_normal _ _ _ _ Hloop) |].
    split; [exact Hcalls |]. rewrite <- He1, Hcleanup. reflexivity.
  - destruct (for_each_completes 0 false e0 Hall) as (b & l & e' & cs & Hn).
    rewrite Hloop in Hn. discriminate Hn.
  - pose proof (Hsetup (env tc)) as Hs. rewrite Hsetup0 in Hs. discriminate Hs.
Qed.

(** Every test call run() makes is the call of the record at that position,
    and run() leaves there the record its try statement produces. *)
Lemma run_call_record tc i t1 r t2 :
  In (CallTest i t1 r t2) (calls_of tc) ->
  exists d e,
    nth_error (data tc) i = Some d /\
    r = fst (func d e) /\ t1 = now e /\ t2 = now (snd (func d e)) /\
    nth_error (data (after_run tc)) i = Some (record_after d t1 r t2).
Proof.
  assert (Hmid : forall calls,
             In (CallTest i t1 r t2) (CallSetup :: calls ++ [CallCleanup]) ->
             In (CallTest i t1 r t2) calls).
  { intros calls [Hc | Hc]; [discriminate |].
    apply in_app_or in Hc. destruct Hc as [Hc | [Hc | []]];
      [exact Hc | discriminate]. }
  assert (Hloop0 : forall e0 res it' e1 calls,
             for_each 0 (data tc) false e0 = (res, it', e1, calls) ->
             In (CallTest i t1 r t2) calls ->
             exists d e,
               nth_error (data tc) i = Some d /\
               r = fst (func d e) /\ t1 = now e /\ t2 = now (snd (func d e)) /\
               nth_error it' i = Some (record_after d t1 r t2)).
  { intros e0 res it' e1 calls Hl Hin.
    destruct (for_each_calls _ _ _ _ Hl _ _ _ _ Hin) as [_ Hex].
    now rewrite Nat.sub_0_r in Hex. }
  run_cases tc; intros Hin.
  - eapply Hloop0; eauto.
  - eapply Hloop0; eauto.
  - destruct Hin as [Hc | Hin]; [discriminate |]. eapply Hloop0; eauto.
  - destruct Hin as [Hc | []]. discriminate.
Qed.

(** C2. For every test run() calls: a body that returns is recorded as
    passed; a body that throws TestFailedException (fail(), or an assertion
    that does not hold) is recorded as failed; a body that throws
    TestPassedException is recorded as passed, and a body that calls pass()
    first is recorded as passed whatever follows the call. *)
Theorem run_records_outcome tc i t1 r t2 :
  In (CallTest i t1 r t2) (calls_of tc) ->
  exists d d' e,
    nth_error (data tc) i = Some d /\
    nth_error (data (after_run tc)) i = Some d' /\
    r = fst (func d e) /\
    (r = Normal tt -> passed d' = true) /\
    (r = Throw TestFailedException -> passed d' = false) /\
    (r = Throw TestPassedException -> passed d' = true) /\
    (func d = fail -> passed d' = false) /\
    (func d = assert false -> passed d' = false) /\
    (forall rest : TestFunc T, func d = (pass ;; rest)%enki -> passed d' = true).
Proof.
  intros Hin.
  destruct (run_call_record _ _ _ _ _ Hin) as (d & e & Hd & Hr & _ & _ & Hd').
  exists d, (record_after d t1 r t2), e.
  repeat (split; [assumption |]).
  repeat split.
  - intros ->. reflexivity.
  - intros ->. reflexivity.
  - intros ->. reflexivity.
  - intros Hf. rewrite Hr, Hf. reflexivity.
  - intros Hf. rewrite Hr, Hf. reflexivity.
  - intros rest Hf. rewrite Hr, Hf. reflexivity.
Qed.

(** A test that ends by an exception keeps the duration its record had
    before the run: the catch clauses do not write [time]. *)
Lemma run_signal_keeps_time tc i t1 x t2 :
  In (CallTest i t1 (Throw x) t2) (calls_of tc) ->
  exists d d',
    nth_error (data tc) i = Some d /\
    nth_error (data (after_run tc)) i = Some d' /\
    time d' = time d.
Proof.
  intros Hin.
  destruct (run_call_record _ _ _ _ _ Hin) as (d & e & Hd & _ & _ & _ & Hd').
  exists d, (record_after d t1 (Throw x) t2).
  repeat split; try assumption. now destruct x.
Qed.

(** A test that returns gets the clock difference across its call. *)
Lemma run_return_sets_time tc i t1 t2 :
  In (CallTest i t1 (Normal tt) t2) (calls_of tc) ->
  exists d',
    nth_error (data (after_run tc)) i = Some d' /\
    passed d' = true /\ time d' = (t2 - t1)%Z.
Proof.
  intros Hin.
  destruct (run_call_record _ _ _ _ _ Hin) as (d & e & Hd & _ & _ & _ & Hd').
  exists (record_after d t1 (Normal tt) t2). repeat split; assumption.
Qed.

(** A second run() works on the records of the first: their number, test
    functions and names are those scheduled, and each test called again has
    its [passed] field set from the second call. *)
Lemma rerun_in_place tc :
  let tc1 := after_run tc in
  map (fun d => (func d, name d)) (data (after_run tc1))
  = map (fun d => (func d, name d)) (data tc) /\
  forall i t1 r t2, In (CallTest i t1 r t2) (calls_of tc1) ->
    exists d1, nth_error (data tc1) i = Some d1 /\
      nth_error (data (after_run tc1)) i = Some (record_after d1 t1 r t2).
Proof.
  intros tc1. split.
  - pose proof (run_keeps_schedule tc1) as H1.
    pose proof (run_keeps_schedule tc) as H0.
    unfold tc1 in *. congruence.
  - intros i t1 r t2 Hin.
    destruct (run_call_record _ _ _ _ _ Hin) as (d & e & Hd & _ & _ & _ & Hd').
    exists d. split; assumption.
Qed.

(** An exception that run() does not handle leaves run() at once: cleanup()
    is not called. *)
Lemma run_throw_skips_cleanup tc x :
  returns_normally setup ->
  returned tc = Throw x ->
  x = OtherException /\ ~ In CallCleanup (calls_of tc)
  \/ exists e, fst (cleanup e) = Throw x.
Proof.
  intros Hsetup. run_cases tc; intros Hret.
  - discriminate Hret.
  - right. exists e1. rewrite Hcleanup. inversion Hret; reflexivity.
  - left. inversion Hret; subst.
    destruct (for_each_throw _ _ _ _ Hloop) as [-> Hn]. split; [reflexivity |].
    intros [Hc | Hc]; [discriminate | auto].
  - pose proof (Hsetup (env tc)) as Hs. rewrite Hsetup0 in Hs. discriminate Hs.
Qed.
End RunFacts.

(** C3. A test that works for five clock ticks and then calls fail(): the
    call lasts from tick 100 to tick 105, the record is marked failed, and
    its [time] is still the 0 that add() stored, not the five ticks that
    passed before the throw. *)
Theorem slow_fail_duration_not_recorded :
  let tc := TimingTestCase.tcase_slow_fail in
  let hooks := TimingTestCase.hooks in
  map (@time nat) (data tc) = [0%Z] /\
  returned tc = Normal true /\
  calls_of tc = [CallSetup; CallTest 0 100 (Throw TestFailedException) 105;
                 CallCleanup] /\
  map (fun d => (passed d, time d)) (data (after_run tc)) = [(false, 0%Z)] /\
  (105 - 100 <> 0)%Z.
Proof.
  cbv zeta. repeat split; try reflexivity. discriminate.
Qed.

(** C6. A test that returns after five ticks when first called and calls
    fail() after three ticks when called again: the second run() leaves one
    record, marked failed as the second call ended, whose [time] is the five
    ticks of the first run, not the three of the second. *)
Theorem rerun_keeps_first_duration :
  let tc := TimingTestCase.tcase_once_ok in
  let hooks := TimingTestCase.hooks in
  let tc1 := after_run tc in
  let tc2 := after_run tc1 in
  calls_of tc = [CallSetup; CallTest 0 100 (Normal tt) 105; CallCleanup] /\
  map (fun d => (passed d, time d)) (data tc1) = [(true, 5%Z)] /\
  calls_of tc1 = [CallSetup; CallTest 0 105 (Throw TestFailedException) 108;
                  CallCleanup] /\
  map (fun d => (passed d, time d)) (data tc2) = [(false, 5%Z)] /\
  (108 - 105 <> 5)%Z.
Proof.
  cbv zeta. repeat split; try reflexivity. discriminate.
Qed.

(** ** class Assert *)

Section AssertFacts.
Context {S : Type}.

(** C7. assert_exception calls the function once; it throws
    TestFailedException exactly when the function throws anything at all
    (TestFailedException included), and returns when the function returns.
    It throws nothing else, and the state is the one the function left. *)
Theorem assert_exception_spec (f : M S unit) (s : S) :
  (fst (assert_exception f s) = Throw TestFailedException
   <-> exists x, fst (f s) = Throw x) /\
  (fst (assert_exception f s) = Normal tt <-> fst (f s) = Normal tt) /\
  (fst (assert_exception f s) = Normal tt
   \/ fst (assert_exception f s) = Throw TestFailedException) /\
  snd (assert_exception f s) = snd (f s).
Proof.
  unfold assert_exception.
  destruct (f s) as [[[] | x] s']; simpl; repeat split; auto;
    try discriminate; eauto.
  intros [x Hx]; discriminate Hx.
Qed.

(** A loop whose body, in the state [s], either throws TestFailedException or
    returns without changing the state: the loop throws when the body does
    for some index, and returns otherwise. *)
Lemma for_pure (ts : list nat) (body : nat -> M S unit) (s : S) :
  (forall t, In t ts ->
     body t s = (Normal tt, s) \/ body t s = (Throw TestFailedException, s)) ->
  (for_ ts body s = (Throw TestFailedException, s) /\
   exists t, In t ts /\ body t s = (Throw TestFailedException, s))
  \/ (for_ ts body s = (Normal tt, s) /\
      forall t, In t ts -> body t s = (Normal tt, s)).
Proof.
  induction ts as [| t ts IH]; intros Hbody; simpl.
  - right. split; [reflexivity | intros t []].
  - unfold bind. destruct (Hbody t (or_introl eq_refl)) as [Ht | Ht]; rewrite Ht.
    + destruct IH as [[Hfor (t' & Hin & Ht')] | [Hfor Hall]].
      * intros t' Hin; apply Hbody; now right.
      * left. split; [exact Hfor |]. exists t'. split; [now right | exact Ht'].
      * right. split; [exact Hfor |]. intros t' [<- | Hin]; auto.
    + left. split; [reflexivity |]. exists t. split; [now left | exact Ht].
Qed.

Variable A : Type.
Variable ne : A -> A -> bool.

Lemma assert_array_equals_cases (a b : list A) (s : S) :
  (assert_array_equals ne a b s = (Throw TestFailedException, s) /\
   arrays_differ ne a b)
  \/ (assert_array_equals ne a b s = (Normal tt, s) /\
      ~ arrays_differ ne a b).
Proof.
  unfold assert_array_equals, bind, assert.
  destruct (Nat.eqb_spec (List.length a) (List.length b)) as [Hlen | Hlen]; simpl.
  - set (body := fun t : nat =>
        match at_ a t, at_ b t with
        | Some x, Some y => if ne x y then throw TestFailedException else ret tt
        | _, _ => ret tt
        end : M S unit).
    destruct (@for_pure (seq 0 (List.length a)) body s) as
      [[Hfor (t & Hin & Ht)] | [Hfor Hall]].
    + intros t _. unfold body, at_.
      destruct (nth_error a t) as [x |], (nth_error b t) as [y |]; auto.
      destruct (ne x y); auto.
    + left. split; [exact Hfor |]. right.
      unfold body, at_ in Ht.
      destruct (nth_error a t) as [x |] eqn:Ha; [| discriminate Ht].
      destruct (nth_error b t) as [y |] eqn:Hb; [| discriminate Ht].
      destruct (ne x y) eqn:Hne; [| discriminate Ht].
      exists t, x, y. auto.
    + right. split; [exact Hfor |].
      intros [Hd | (t & x & y & Ha & Hb & Hne)]; [contradiction |].
      assert (Hin : In t (seq 0 (List.length a))).
      { apply in_seq. split; [lia |]. simpl.
        apply nth_error_Some. congruence. }
      specialize (Hall t Hin). unfold body, at_ in Hall.
      rewrite Ha, Hb, Hne in Hall. discriminate Hall.
  - left. split; [reflexivity |]. now left.
Qed.
End AssertFacts.

(** C8. assert_array_equals throws TestFailedException exactly when the
    lengths differ or the elements at some index compare unequal, and
    returns otherwise, leaving the state alone; two empty arrays are equal;
    the arrays 1 2 3 4 5 and 1 2 3 4 5 of int pass, 1 2 3 4 5 and 1 2 3 4 6
    fail. *)
Theorem assert_array_equals_spec (S A : Type) (ne : A -> A -> bool)
  (a b : list A) (s : S) (u : Env unit) :
  (assert_array_equals ne a b s = (Throw TestFailedException, s)
   <-> arrays_differ ne a b) /\
  (assert_array_equals ne a b s = (Normal tt, s) <-> ~ arrays_differ ne a b) /\
  assert_array_equals ne [] [] s = (Normal tt, s) /\
  AssertTestCase.test_assert_array_equals_pass u = (Normal tt, u) /\
  AssertTestCase.test_assert_array_equals_fail u
  = (Throw TestFailedException, u).
Proof.
  repeat split; try reflexivity.
  - intros H. destruct (assert_array_equals_cases ne a b s) as [[_ Hd] | [Hn _]];
      [exact Hd | congruence].
  - intros Hd. destruct (assert_array_equals_cases ne a b s) as [[Ht _] | [_ Hn]];
      [exact Ht | contradiction].
  - intros H. destruct (assert_array_equals_cases ne a b s) as [[Ht _] | [_ Hn]];
      [congruence | exact Hn].
  - intros Hn. destruct (assert_array_equals_cases ne a b s) as [[_ Hd] | [Hr _]];
      [contradiction | exact Hr].
Qed.

(** ** The text exporter *)

Lemma append_assoc (a b c : string) : ((a ++ b) ++ c = a ++ (b ++ c))%string.
Proof.
  induction a as [| ch a IH]; simpl; [reflexivity | now rewrite IH].
Qed.

Lemma append_nil_r (a : string) : (a ++ EmptyString = a)%string.
Proof.
  induction a as [| ch a IH]; simpl; [reflexivity | now rewrite IH].
Qed.

Section TextExportFacts.
Context {T : Type}.
Variable style : Style.
Variable show_time : Z -> string.
Implicit Types (x : TextStreamResultExporter) (d : TestData T).

(** What export_result appends to the stream, given the flag alone. *)
Lemma export_result_appends (flag : bool) (out : string) d :
  os (export_result style show_time (mkExporter flag out) d)
  = (out ++ spec_line (outcome_word style (passed d))
              (if flag then Some (duration_field show_time (time d)) else None)
              (name d))%string.
Proof.
  unfold export_result, is_duration_exported, put, put_width, spec_line,
    outcome_word, duration_field; cbn [os export_test_durations].
  destruct flag, (passed d); repeat rewrite append_assoc; reflexivity.
Qed.

Lemma export_result_flag x d :
  export_test_durations (export_result style show_time x d)
  = export_test_durations x.
Proof. reflexivity. Qed.

Lemma export_results_appends (ds : list (TestData T)) : forall x,
  os (fold_left (export_result style show_time) ds x)
  = (os x ++ lines (map (fun d =>
       spec_line (outcome_word style (passed d))
         (if export_test_durations x
          then Some (duration_field show_time (time d)) else None)
         (name d)) ds))%string.
Proof.
  induction ds as [| d ds IH]; intros x; simpl.
  - now rewrite append_nil_r.
  - rewrite IH, export_result_flag. destruct x as [flag out].
    rewrite export_result_appends. cbn [os export_test_durations].
    now rewrite append_assoc.
Qed.

(** C9. The text exporter writes each record as one line of the shape
    [[<PASSED|FAILED>] [<duration>s ]<name>]: constructed with
    export_time false, the line has no duration field and does not depend on
    the duration; constructed with export_time true, it has the one field
    made of the duration, filled to eight characters, followed by "s ".
    export_results writes these lines for the records in list order.  The
    outcome word is PASSED or FAILED between colour sequences, or, without
    colours, passed or FAILED. *)
Theorem export_result_line (out : string) d (tcase : TestCase T) :
  let word := outcome_word style (passed d) in
  let off := mkExporter false out in
  let on := mkExporter true out in
  os (export_result style show_time off d)
  = (out ++ spec_line word None (name d))%string /\
  (forall t, export_result style show_time off (set_time t d)
             = export_result style show_time off d) /\
  os (export_result style show_time on d)
  = (out ++ spec_line word
              (Some (duration_field show_time (time d))) (name d))%string /\
  os (export_results style show_time off tcase)
  = (out ++ lines (map (fun d => spec_line (outcome_word style (passed d))
                                   None (name d)) (data tcase)))%string /\
  os (export_results style show_time on tcase)
  = (out ++ lines (map (fun d => spec_line (outcome_word style (passed d))
                                   (Some (duration_field show_time (time d)))
                                   (name d)) (data tcase)))%string /\
  outcome_word style_colors true
  = ((ESC ++ "[32m;") ++ "PASSED" ++ (ESC ++ "[0m;"))%string /\
  outcome_word style_colors false
  = ((ESC ++ "[31m;") ++ "FAILED" ++ (ESC ++ "[0m;"))%string /\
  outcome_word style_nocolors true = "passed"%string /\
  outcome_word style_nocolors false = "FAILED"%string.
Proof.
  cbv zeta.
  split; [apply export_result_appends |].
  split; [reflexivity |].
  split; [apply export_result_appends |].
  split; [apply (export_results_appends (data tcase) (mkExporter false out)) |].
  split; [apply (export_results_appends (data tcase) (mkExporter true out)) |].
  repeat split.
Qed.
End TextExportFacts.

(** ** The theorems at the sample programs *)

Lemma skeleton_behaviours (e : Env unit) :
  returns_normally (@setup unit SkeletonTestCase.hooks) /\
  returns_normally (@cleanup unit SkeletonTestCase.hooks) /\
  Forall (fun d => signals_only (func d)) (data (SkeletonTestCase.tcase e)).
Proof.
  split; [intros s; reflexivity |]. split; [intros s; reflexivity |].
  repeat constructor; intros s; simpl; discriminate.
Qed.

(** run() on the skeleton sample returns true: "Test fail 1" fails. *)
Lemma run_returns_true_iff_failed_witness :
  let hooks := SkeletonTestCase.hooks in
  let tc := SkeletonTestCase.tcase (mkEnv tt 0%Z) in
  (returns_normally setup /\ returns_normally cleanup /\
   Forall (fun d => signals_only (func d)) (data tc)) /\
  exists err,
    returned tc = Normal err /\
    (err = true <-> exists d, In d (data (after_run tc)) /\ passed d = false) /\
    (data tc = [] -> err = false).
Proof.
  cbv zeta.
  destruct (skeleton_behaviours (mkEnv tt 0%Z)) as (Hs & Hc & Hall).
  split; [auto |].
  exact (@run_returns_true_iff_failed unit SkeletonTestCase.hooks
           (SkeletonTestCase.tcase (mkEnv tt 0%Z)) Hs Hc Hall).
Defined.

Lemma fixture_behaviours :
  returns_normally (@setup (list string) FixtureTestCase.hooks) /\
  Forall (fun d => signals_only (func d)) (data FixtureTestCase.tcase).
Proof.
  split; [intros s; reflexivity |].
  repeat constructor; intros s; simpl; discriminate.
Qed.

(** The calls of run() on a test case whose hooks and tests write to a
    journal in the object, and whose second test fails: the journal holds
    the lines of setup(), of the three tests in order and of cleanup(). *)
Lemma run_calls_setup_tests_cleanup_witness :
  let hooks := FixtureTestCase.hooks in
  let tc := FixtureTestCase.tcase in
  (returns_normally setup /\
   Forall (fun d => signals_only (func d)) (data tc)) /\
  (exists tests,
      calls_of tc = CallSetup :: tests ++ [CallCleanup] /\
      Forall2 is_call_of tests (seq 0 (List.length (data tc))) /\
      tests = test_calls 0 (data tc) (snd (setup (env tc))) /\
      env (after_run tc)
      = snd (cleanup (after_tests (data tc) (snd (setup (env tc)))))) /\
  calls_of tc = [CallSetup; CallTest 0 1 (Normal tt) 2;
                 CallTest 1 2 (Throw TestFailedException) 3;
                 CallTest 2 3 (Throw TestPassedException) 4; CallCleanup] /\
  self (env (after_run tc))
  = ["setup"; "first"; "second"; "third"; "cleanup"]%string /\
  map (@passed (list string)) (data (after_run tc)) = [true; false; true].
Proof.
  cbv zeta.
  destruct fixture_behaviours as (Hs & Hall).
  split; [auto |]. split.
  - exact (@run_calls_setup_tests_cleanup (list string) FixtureTestCase.hooks
             FixtureTestCase.tcase Hs Hall).
  - repeat split; reflexivity.
Defined.

(** A test that calls pass() and would then fail an assertion is recorded
    as passed. *)
Lemma run_records_outcome_witness :
  let hooks := TimingTestCase.hooks in
  let tc := TimingTestCase.tcase_pass_first in
  In (CallTest 0 100 (Throw TestPassedException) 100) (calls_of tc) /\
  exists d',
    nth_error (data (after_run tc)) 0 = Some d' /\ passed d' = true.
Proof.
  cbv zeta.
  assert (Hin : In (CallTest 0 100 (Throw TestPassedException) 100)
                  (@calls_of nat TimingTestCase.hooks
                     TimingTestCase.tcase_pass_first)).
  { simpl. auto. }
  split; [exact Hin |].
  destruct (@run_records_outcome nat TimingTestCase.hooks _ _ _ _ _ Hin)
    as (d & d' & e & Hd & Hd' & _ & _ & _ & _ & _ & _ & Hpass).
  exists d'. split; [exact Hd' |].
  apply (Hpass (assert false)).
  simpl in Hd. inversion Hd. reflexivity.
Defined.

(** ** The sample programs, run *)

(** samples/skeleton.cpp: run() reports a failure, the two tests that call
    pass() and the empty test are passed, "Test fail 1" is failed, and the
    console exporter (no durations) prints one line per test. *)
Example skeleton_run :
  let hooks := SkeletonTestCase.hooks in
  let tc := SkeletonTestCase.tcase (mkEnv tt 0%Z) in
  returned tc = Normal true /\
  map (fun d => (name d, passed d)) (data (after_run tc))
  = [("Test pass 1", true); ("Test fail 1", false);
     ("Test pass 2", true); ("Test empty", true)]%string /\
  os (export_results style_nocolors (fun _ => EmptyString)
        (mkExporter false EmptyString) (after_run tc))
  = ("[passed] Test pass 1" ++ endl ++ "[FAILED] Test fail 1" ++ endl
     ++ "[passed] Test pass 2" ++ endl ++ "[passed] Test empty" ++ endl)%string.
Proof.
  cbv zeta. repeat split; reflexivity.
Qed.

(** samples/assertions.cpp: the tests named "fail" fail, and so does the
    test of assert_exception, whose function throws; the timing test gets
    its 666 ms. *)
Example assertions_run :
  let hooks := AssertTestCase.hooks in
  let tc := AssertTestCase.tcase (mkEnv tt 0%Z) in
  returned tc = Normal true /\
  map (fun d => (passed d, time d)) (data (after_run tc))
  = [(true, 0); (false, 0); (true, 0); (false, 0); (true, 0); (false, 0);
     (true, 666000000)]%Z.
Proof.
  cbv zeta. split; reflexivity.
Qed.

(** * Further properties of the code *)

(** ** The loop of run(), continued *)

Section MoreLoopFacts.
Context {T : Type}.
Implicit Types (d : TestData T) (it : list (TestData T)) (e : Env T).

Ltac body_cases d e :=
  unfold try_test;
  let Hf := fresh "Hf" in
  destruct (func d e) as [[[] | []] ?e] eqn:Hf; cbn [fst snd].

Ltac rest_of_loop IH i err e :=
  let E := fresh "E" in
  specialize (IH i err e);
  destruct (for_each i _ err e) as [[[?r ?it'] ?e'] ?calls] eqn:E.


(** The loop keeps every stored duration at or above zero when the clock
    does not go backwards during a test. *)
Lemma for_each_time_nonneg it : forall i err e r it' e' calls,
  Forall (fun d => (0 <= time d)%Z) it ->
  Forall (fun d => clock_monotone (func d)) it ->
  for_each i it err e = (r, it', e', calls) ->
  Forall (fun d => (0 <= time d)%Z) it'.
Proof.
  induction it as [| d rest IH]; intros i err e r it' e' calls Ht Hm H;
    simpl in H.
  - inversion H; subst. constructor.
  - inversion Ht as [| ? ? Htd Htrest]; inversion Hm as [| ? ? Hmd Hmrest]; subst.
    pose proof (Hmd e) as Hclock.
    revert H Hclock; body_cases d e; intros H Hclock.
    + rest_of_loop IH (S i) err e0. inversion H; subst.
      constructor; [simpl; lia | eapply IH; eauto].
    + rest_of_loop IH (S i) true e0. inversion H; subst.
      constructor; [exact Htd | eapply IH; eauto].
    + rest_of_loop IH (S i) err e0. inversion H; subst.
      constructor; [exact Htd | eapply IH; eauto].
    + inversion H; subst. exact Ht.
Qed.

(** Two loops over records with the same test functions, started with the
    same [err] from any two states, end alike and set the same [passed]
    fields, when no body depends on the state for the way it ends. *)
Lemma for_each_fixed it1 : forall it2 i j err e1 e2 r1 r2 it1' it2' e1' e2' c1 c2,
  map (@func T) it1 = map (@func T) it2 ->
  Forall (fun d => outcome_fixed (func d)) it1 ->
  Forall (fun d => signals_only (func d)) it1 ->
  for_each i it1 err e1 = (r1, it1', e1', c1) ->
  for_each j it2 err e2 = (r2, it2', e2', c2) ->
  r1 = r2 /\ map (@passed T) it1' = map (@passed T) it2'.
Proof.
  induction it1 as [| d1 rest1 IH];
    intros [| d2 rest2] i j err e1 e2 r1 r2 it1' it2' e1' e2' c1 c2
           Hfun Hfix Hsig H1 H2; simpl in Hfun; try discriminate Hfun.
  - simpl in H1, H2. inversion H1; inversion H2; subst. auto.
  - inversion Hfun as [[Hd Hrest]].
    inversion Hfix as [| ? ? Hfd Hfrest]; inversion Hsig as [| ? ? Hsd Hsrest];
      subst.
    simpl in H1, H2. unfold try_test in H1, H2. rewrite <- Hd in H2.
    pose proof (Hfd e1 e2) as Hsame. pose proof (Hsd e1) as Hs1.
    destruct (func d1 e1) as [[[] | []] e1a];
      destruct (func d1 e2) as [[[] | []] e2a];
      cbn [fst snd] in *; try discriminate Hsame; try congruence.
    + destruct (for_each (S i) rest1 err e1a) as [[[ra la] ea] ca] eqn:Ea.
      destruct (for_each (S j) rest2 err e2a) as [[[rb lb] eb] cb] eqn:Eb.
      inversion H1; inversion H2; subst.
      destruct (IH _ _ _ _ _ _ _ _ _ _ _ _ _ _ Hrest Hfrest Hsrest Ea Eb)
        as [-> Hp].
      split; [reflexivity | simpl; now rewrite Hp].
    + destruct (for_each (S i) rest1 true e1a) as [[[ra la] ea] ca] eqn:Ea.
      destruct (for_each (S j) rest2 true e2a) as [[[rb lb] eb] cb] eqn:Eb.
      inversion H1; inversion H2; subst.
      destruct (IH _ _ _ _ _ _ _ _ _ _ _ _ _ _ Hrest Hfrest Hsrest Ea Eb)
        as [-> Hp].
      split; [reflexivity | simpl; now rewrite Hp].
    + destruct (for_each (S i) rest1 err e1a) as [[[ra la] ea] ca] eqn:Ea.
      destruct (for_each (S j) rest2 err e2a) as [[[rb lb] eb] cb] eqn:Eb.
      inversion H1; inversion H2; subst.
      destruct (IH _ _ _ _ _ _ _ _ _ _ _ _ _ _ Hrest Hfrest Hsrest Ea Eb)
        as [-> Hp].
      split; [reflexivity | simpl; now rewrite Hp].
Qed.

(** Records behind the end of the list do not change what the loop does
    with the records before them. *)
Lemma for_each_app it : forall extra i err e r it' e' calls r2 it2 e2 calls2,
  for_each i it err e = (r, it', e', calls) ->
  for_each i (it ++ extra) err e = (r2, it2, e2, calls2) ->
  firstn (List.length it) it2 = it'.
Proof.
  induction it as [| d rest IH];
    intros extra i err e r it' e' calls r2 it2 e2 calls2 H H2;
    simpl in H, H2.
  - inversion H; subst. reflexivity.
  - revert H H2; body_cases d e; intros H H2.
    + destruct (for_each (S i) rest err e0) as [[[ra la] ea] ca] eqn:Ea.
      destruct (for_each (S i) (rest ++ extra) err e0) as [[[rb lb] eb] cb] eqn:Eb.
      inversion H; inversion H2; subst. simpl. f_equal. eapply IH; eauto.
    + destruct (for_each (S i) rest true e0) as [[[ra la] ea] ca] eqn:Ea.
      destruct (for_each (S i) (rest ++ extra) true e0) as [[[rb lb] eb] cb] eqn:Eb.
      inversion H; inversion H2; subst. simpl. f_equal. eapply IH; eauto.
    + destruct (for_each (S i) rest err e0) as [[[ra la] ea] ca] eqn:Ea.
      destruct (for_each (S i) (rest ++ extra) err e0) as [[[rb lb] eb] cb] eqn:Eb.
      inversion H; inversion H2; subst. simpl. f_equal. eapply IH; eauto.
    + inversion H; inversion H2; subst. simpl. f_equal.
      rewrite firstn_app, Nat.sub_diag, firstn_all. simpl. apply app_nil_r.
Qed.
End MoreLoopFacts.

(** ** TestCase::run, continued *)

Section MoreRunFacts.
Context {T : Type} {hooks : TestCaseHooks T}.
Implicit Types (tc : TestCase T) (d : TestData T).

(** The two ways through run(): setup() throws and nothing else happens, or
    the loop runs from the state setup() left, its records are those of the
    object afterwards, and cleanup() is called only when the loop was not
    left by an exception. *)
Lemma run_paths tc :
  (exists x e0,
      setup (env tc) = (Throw x, e0) /\
      returned tc = Throw x /\ data (after_run tc) = data tc /\
      calls_of tc = [CallSetup])
  \/ (exists e0 r it' e1 calls,
         setup (env tc) = (Normal tt, e0) /\
         for_each 0 (data tc) false e0 = (r, it', e1, calls) /\
         data (after_run tc) = it' /\
         ((exists x, r = Throw x /\ returned tc = Throw x /\
                     calls_of tc = CallSetup :: calls)
          \/ (exists err, r = Normal err /\
                calls_of tc = CallSetup :: calls ++ [CallCleanup] /\
                (returned tc = Normal err \/
                 exists x, returned tc = Throw x /\
                           fst (cleanup e1) = Throw x)))).
Proof.
  unfold returned, after_run, calls_of, run.
  destruct (setup (env tc)) as [[[] | x] e0] eqn:Hs.
  - right.
    destruct (for_each 0 (data tc) false e0) as [[[[err | x] it'] e1] calls] eqn:Hl.
    + exists e0, (Normal err), it', e1, calls.
      split; [reflexivity |]. split; [exact Hl |].
      destruct (cleanup e1) as [[[] | x] e2] eqn:Hc; cbn [fst snd data];
        (split; [reflexivity |]); right; exists err;
        (split; [reflexivity |]); (split; [reflexivity |]).
      * now left.
      * right. exists x. auto.
    + exists e0, (Throw x), it', e1, calls. cbn [fst snd data].
      split; [reflexivity |]. split; [exact Hl |]. split; [reflexivity |].
      left. exists x. auto.
  - left. exists x, e0. cbn [fst snd data]. auto.
Qed.



(** X3. Stored durations stay at or above zero: when every record holds a
    duration that is not negative and the clock does not go backwards during
    any test, the same is true of every record after run(), however run()
    ends. *)
Theorem run_time_nonneg tc :
  Forall (fun d => (0 <= time d)%Z) (data tc) ->
  Forall (fun d => clock_monotone (func d)) (data tc) ->
  Forall (fun d => (0 <= time d)%Z) (data (after_run tc)).
Proof.
  intros Ht Hm.
  destruct (run_paths tc) as [(y & e0 & Hsetup & Hr & Hd & Hc)
                             | (e0 & r & it' & e1 & calls & Hsetup & Hl & Hd & _)];
    rewrite Hd; [exact Ht |].
  eapply for_each_time_nonneg; eauto.
Qed.


(** X5. When every body ends the same way from every state, and in one of
    the three ways run() provides for, a second run() returns what the first
    returned and marks every test as the first did. *)
Theorem rerun_same_outcomes tc :
  returns_normally setup ->
  returns_normally cleanup ->
  Forall (fun d => outcome_fixed (func d)) (data tc) ->
  Forall (fun d => signals_only (func d)) (data tc) ->
  returned (after_run tc) = returned tc /\
  map (@passed T) (data (after_run (after_run tc)))
  = map (@passed T) (data (after_run tc)).
Proof.
  intros Hsetup Hcleanup Hfix Hsig.
  assert (Hnormal : forall tc0,
             exists e0 r it' e1 calls,
               for_each 0 (data tc0) false e0 = (r, it', e1, calls) /\
               returned tc0 = r /\ data (after_run tc0) = it').
  { intros tc0.
    destruct (run_paths tc0) as [(y & e0 & Hs & _)
                                | (e0 & r & it' & e1 & calls & Hs & Hl & Hd & Hend)].
    - pose proof (Hsetup (env tc0)) as H. rewrite Hs in H. discriminate H.
    - exists e0, r, it', e1, calls. split; [exact Hl |]. split; [| exact Hd].
      destruct Hend as [(x & -> & Hret & _) | (err & -> & _ & [Hret | (x & _ & Hc)])];
        try assumption.
      rewrite (Hcleanup e1) in Hc. discriminate Hc. }
  destruct (Hnormal tc) as (e0 & r & it' & e1 & calls & Hl & Hr & Hd).
  destruct (Hnormal (after_run tc)) as (e0' & r' & it'' & e1' & calls' & Hl' & Hr' & Hd').
  rewrite Hr, Hr', Hd'. rewrite Hd in Hl' |- *.
  destruct (@for_each_frame _ _ _ _ _ _ _ _ _ Hl) as [Hfun _].
  destruct (@for_each_fixed _ _ _ _ _ _ _ _ _ _ _ _ _ _ _ _ (eq_sym Hfun) Hfix Hsig Hl Hl') as [-> Hp].
  split; [reflexivity | symmetry; exact Hp].
Qed.

(** X6. Scheduling one more test does not change what run() records for
    the tests scheduled before it. *)
Theorem run_add_prefix tc (test : TestFunc T) (nm : string) :
  firstn (List.length (data tc)) (data (after_run (add test nm tc)))
  = data (after_run tc).
Proof.
  destruct (run_paths tc) as [(y & e0 & Hs & _ & Hd & _)
                             | (e0 & r & it' & e1 & calls & Hs & Hl & Hd & _)];
    destruct (run_paths (add test nm tc))
      as [(y' & e0' & Hs' & _ & Hd' & _)
         | (e0' & r' & it2 & e1' & calls' & Hs' & Hl' & Hd' & _)];
    cbn [add env data] in Hs', Hd'; rewrite Hs in Hs'; try discriminate Hs'.
  - rewrite Hd, Hd'. cbn [add data].
    rewrite firstn_app, Nat.sub_diag, firstn_all. simpl. apply app_nil_r.
  - inversion Hs'; subst e0'. cbn [add data] in Hl'.
    rewrite Hd, Hd'. eapply for_each_app; eauto.
Qed.
End MoreRunFacts.

(** ** class Assert, continued *)

Section MoreAssertFacts.
Context {S A : Type}.
Implicit Types (a b arr : list A) (s : S).

Lemma assert_array_subdomain_cases (lt gt : A -> A -> bool) arr (min max : A) s :
  (assert_array_subdomain lt gt arr min max s = (Throw TestFailedException, s) /\
   outside_subdomain lt gt arr min max)
  \/ (assert_array_subdomain lt gt arr min max s = (Normal tt, s) /\
      ~ outside_subdomain lt gt arr min max).
Proof.
  unfold assert_array_subdomain.
  set (body := fun t : nat =>
        match at_ arr t with
        | Some x => if lt x min || gt x max then throw TestFailedException
                    else ret tt
        | None => ret tt
        end : M S unit).
  destruct (@for_pure S (seq 0 (List.length arr)) body s) as
    [[Hfor (t & Hin & Ht)] | [Hfor Hall]].
  - intros t _. unfold body, at_.
    destruct (nth_error arr t) as [x |]; auto.
    destruct (lt x min || gt x max); auto.
  - left. split; [exact Hfor |]. unfold body, at_ in Ht.
    destruct (nth_error arr t) as [x |] eqn:Ha; [| discriminate Ht].
    destruct (lt x min || gt x max) eqn:Hout; [| discriminate Ht].
    exists t, x. auto.
  - right. split; [exact Hfor |]. intros (t & x & Ha & Hout).
    assert (Hin : In t (seq 0 (List.length arr))).
    { apply in_seq. split; [lia |]. simpl. apply nth_error_Some. congruence. }
    specialize (Hall t Hin). unfold body, at_ in Hall.
    rewrite Ha, Hout in Hall. discriminate Hall.
Qed.

(** X7. assert_array_subdomain throws TestFailedException exactly when some
    element is below min or above max, and returns otherwise, the state left
    alone; it throws nothing else, and an array of length 0 always passes. *)
Theorem assert_array_subdomain_spec (lt gt : A -> A -> bool) arr (min max : A) s :
  (assert_array_subdomain lt gt arr min max s = (Throw TestFailedException, s)
   <-> outside_subdomain lt gt arr min max) /\
  (assert_array_subdomain lt gt arr min max s = (Normal tt, s)
   <-> ~ outside_subdomain lt gt arr min max) /\
  assert_array_subdomain lt gt [] min max s = (Normal tt, s).
Proof.
  pose proof (assert_array_subdomain_cases lt gt arr min max s) as Hc.
  repeat split; try reflexivity.
  - intros H. destruct Hc as [[_ Hd] | [Hn _]]; [exact Hd | congruence].
  - intros Hd. destruct Hc as [[Ht _] | [_ Hn]]; [exact Ht | contradiction].
  - intros H. destruct Hc as [[Ht _] | [_ Hn]]; [congruence | exact Hn].
  - intros Hn. destruct Hc as [[_ Hd] | [Hr _]]; [contradiction | exact Hr].
Qed.

Lemma nth_error_ext_eq a : forall b,
  List.length a = List.length b ->
  (forall t x y, nth_error a t = Some x -> nth_error b t = Some y -> x = y) ->
  a = b.
Proof.
  induction a as [| x a IH]; intros [| y b] Hlen Hnth; simpl in Hlen;
    try discriminate Hlen; [reflexivity |].
  f_equal.
  - apply (Hnth 0%nat); reflexivity.
  - apply IH; [lia |]. intros t x' y' Ha Hb. apply (Hnth (Datatypes.S t)); assumption.
Qed.

(** X8. When operator!= of the domain type is the negation of equality,
    assert_array_equals returns exactly when the two arrays are equal, and
    throws TestFailedException otherwise. *)
Theorem assert_array_equals_iff_eq (ne : A -> A -> bool) a b s :
  (forall x y, ne x y = false <-> x = y) ->
  (assert_array_equals ne a b s = (Normal tt, s) <-> a = b) /\
  (assert_array_equals ne a b s = (Throw TestFailedException, s) <-> a <> b).
Proof.
  intros Hne.
  assert (Hsame : ~ arrays_differ ne a b -> a = b).
  { intros Hn. apply nth_error_ext_eq.
    - destruct (Nat.eq_dec (List.length a) (List.length b)) as [He | He];
        [exact He |]. exfalso. apply Hn. now left.
    - intros t x y Ha Hb. apply Hne.
      destruct (ne x y) eqn:Hxy; [| reflexivity].
      exfalso. apply Hn. right. exists t, x, y. auto. }
  assert (Hdiff : arrays_differ ne a b -> a <> b).
  { intros [Hlen | (t & x & y & Ha & Hb & Hxy)] Heq; subst b.
    - now apply Hlen.
    - rewrite Ha in Hb. inversion Hb; subst y.
      destruct (Hne x x) as [_ Hxx]. rewrite (Hxx eq_refl) in Hxy.
      discriminate Hxy. }
  destruct (assert_array_equals_cases ne a b s) as [[Ht Hd] | [Hr Hn]].
  - split; split; intros H; try congruence.
    + exfalso. now apply (Hdiff Hd).
    + now apply Hdiff.
  - split; split; intros H; try congruence.
    + now apply Hsame.
    + exfalso. apply H. now apply Hsame.
Qed.
End MoreAssertFacts.

(** ** The exporters, continued *)

Lemma append_inv_head (out a b : string) :
  (out ++ a)%string = (out ++ b)%string -> a = b.
Proof.
  induction out as [| ch out IH]; simpl; intros H; [exact H |].
  inversion H. auto.
Qed.

Section MoreExportFacts.
Context {T : Type}.
Variable show_time : Z -> string.
Implicit Types (d : TestData T) (tcase : TestCase T).

(** X9. Exported before run() was ever called, every scheduled test is
    printed as FAILED, with the duration 0 when durations are exported:
    add() stores [passed = false] and [time = 0.0]. *)
Theorem export_before_run (style : Style) (flag : bool) (out : string)
  (regs : list (TestFunc T * string)) (e : Env T) :
  os (export_results style show_time (mkExporter flag out)
        (add_all regs (new_TestCase e)))
  = (out ++ lines (map (fun reg =>
              spec_line (outcome_word style false)
                (if flag then Some (duration_field show_time 0) else None)
                (snd reg)) regs))%string.
Proof.
  unfold export_results, get_data.
  rewrite add_all_data, export_results_appends. cbn [os export_test_durations].
  simpl. now rewrite map_map.
Qed.

Lemma xml_export_result_appends (flag : bool) (out : string) d :
  xml_export_result show_time (mkXMLExporter flag out) d
  = mkXMLExporter flag
      (out ++ xml_element (if passed d then "passed" else "failed")
                (if flag then Some (show_time (time d)) else None)
                (name d))%string.
Proof.
  unfold xml_export_result, put, xml_element, endl, nl;
    cbn [xml_os xml_export_test_durations].
  destruct flag; repeat rewrite append_assoc; reflexivity.
Qed.

Lemma xml_fold_appends (ds : list (TestData T)) : forall flag out,
  fold_left (xml_export_result show_time) ds (mkXMLExporter flag out)
  = mkXMLExporter flag
      (out ++ lines (map (fun d =>
                 xml_element (if passed d then "passed" else "failed")
                   (if flag then Some (show_time (time d)) else None)
                   (name d)) ds))%string.
Proof.
  induction ds as [| d ds IH]; intros flag out; simpl.
  - now rewrite append_nil_r.
  - rewrite xml_export_result_appends, IH. now rewrite append_assoc.
Qed.

Lemma xml_export_results_appends (flag : bool) (out : string) tcase :
  xml_export_results show_time (mkXMLExporter flag out) tcase
  = mkXMLExporter flag (out ++ xml_block show_time flag tcase)%string.
Proof.
  unfold xml_export_results, get_data, put, xml_block;
    cbn [xml_os xml_export_test_durations].
  rewrite xml_fold_appends; cbn [xml_os xml_export_test_durations].
  repeat rewrite append_assoc. reflexivity.
Qed.

(** X10. XMLStreamResultExporter::export_result appends one self-closing
    test element per record: result is passed or failed as the record says,
    the duration attribute is there exactly when durations are exported (and
    then holds the duration as printed, with no field width), and the name
    is written as it is stored, character for character.  Without durations
    the element does not depend on the stored duration. *)
Theorem xml_export_result_element (flag : bool) (out : string) d :
  xml_os (xml_export_result show_time (mkXMLExporter flag out) d)
  = (out ++ tab ++ tab ++ "<test result=" ++ dquote
         ++ (if passed d then "passed" else "failed") ++ dquote
         ++ (if flag then " duration=" ++ dquote ++ show_time (time d) ++ dquote
             else EmptyString)
         ++ " name=" ++ dquote ++ name d ++ dquote ++ "/>" ++ nl)%string /\
  xml_export_test_durations
    (xml_export_result show_time (mkXMLExporter flag out) d) = flag /\
  (forall t, xml_export_result show_time (mkXMLExporter false out) (set_time t d)
             = xml_export_result show_time (mkXMLExporter false out) d).
Proof.
  rewrite xml_export_result_appends. cbn [xml_os xml_export_test_durations].
  split; [| split; [reflexivity |]].
  - unfold xml_element. destruct flag; reflexivity.
  - intros t. now rewrite !xml_export_result_appends.
Qed.

(** X11. An XMLStreamResultExporter constructed on a stream, given any
    number of test cases and then destroyed, has written after what the
    stream held: the XML header once, one test-case block per export_results
    call in call order, each holding one element per record in list order,
    and the footer once. *)
Theorem xml_document (flag : bool) (out : string) (tcases : list (TestCase T)) :
  XMLStreamResultExporter_delete
    (fold_left (xml_export_results show_time) tcases
       (XMLStreamResultExporter_new out flag))
  = (out ++ xml_header
         ++ lines (map (xml_block show_time flag) tcases)
         ++ xml_footer)%string.
Proof.
  assert (H : forall acc,
             XMLStreamResultExporter_delete
               (fold_left (xml_export_results show_time) tcases
                  (mkXMLExporter flag acc))
             = (acc ++ lines (map (xml_block show_time flag) tcases)
                    ++ xml_footer)%string).
  { induction tcases as [| tc tcs IH]; intros acc; cbn [fold_left map].
    - unfold XMLStreamResultExporter_delete, put, xml_footer, endl, nl.
      cbn [xml_os]. rewrite append_assoc. reflexivity.
    - rewrite xml_export_results_appends, IH.
      change (lines (xml_block show_time flag tc
                     :: map (xml_block show_time flag) tcs))
        with (xml_block show_time flag tc
              ++ lines (map (xml_block show_time flag) tcs))%string.
      rewrite !append_assoc. reflexivity. }
  unfold XMLStreamResultExporter_new, put. rewrite H.
  unfold xml_header. now rewrite !append_assoc.
Qed.

(** X12. A passed record and a failed record are never printed alike: in
    both builds of the text exporter, and in the XML exporter, the output
    for one differs from the output for the other, whatever their names and
    durations. *)
Theorem export_outcome_visible (style : Style) (x : TextStreamResultExporter)
  (xx : XMLStreamResultExporter) (d1 d2 : TestData T) :
  style = style_colors \/ style = style_nocolors ->
  passed d1 = true ->
  passed d2 = false ->
  os (export_result style show_time x d1)
  <> os (export_result style show_time x d2) /\
  xml_os (xml_export_result show_time xx d1)
  <> xml_os (xml_export_result show_time xx d2).
Proof.
  intros Hstyle Hp1 Hp2. destruct x as [flag out], xx as [xflag xout]. split.
  - rewrite !export_result_appends. intros H. apply append_inv_head in H.
    unfold spec_line, outcome_word in H. rewrite Hp1, Hp2 in H.
    destruct Hstyle; subst style; simpl in H; discriminate H.
  - rewrite !xml_export_result_appends. cbn [xml_os]. intros H.
    apply append_inv_head in H.
    unfold xml_element in H. rewrite Hp1, Hp2 in H.
    simpl in H. discriminate H.
Qed.
End MoreExportFacts.

(** ** Durations of tests that end by an exception *)

Section ExceptionFacts.
Context {T : Type} {hooks : TestCaseHooks T}.

(** X13. A test that ends by an exception of any kind, pass() included,
    keeps in its record the duration that was there before the run, be it the
    0 of add() or the duration of an earlier run; its test function and name
    are kept as well. *)
Theorem run_exception_keeps_duration (tc : TestCase T) i t1 x t2 :
  In (CallTest i t1 (Throw x) t2) (calls_of tc) ->
  exists d d',
    nth_error (data tc) i = Some d /\
    nth_error (data (after_run tc)) i = Some d' /\
    time d' = time d /\ func d' = func d /\ name d' = name d /\
    (x = TestFailedException -> passed d' = false) /\
    (x = TestPassedException -> passed d' = true).
Proof.
  intros Hin.
  destruct (run_call_record _ _ _ _ _ Hin) as (d & e & Hd & _ & _ & _ & Hd').
  exists d, (record_after d t1 (Throw x) t2).
  split; [exact Hd |]. split; [exact Hd' |].
  destruct x; simpl; repeat split; auto; discriminate.
Qed.
End ExceptionFacts.

(** ** The further theorems at sample programs *)



Lemma mixed_clock_monotone (tc : TestCase nat) :
  map (@func nat) (data tc) = map (@func nat) (data MixedTestCase.tcase) ->
  Forall (fun d => clock_monotone (func d)) (data tc).
Proof.
  intros Hf.
  assert (Hall : Forall (@clock_monotone nat)
                   (map (@func nat) (data MixedTestCase.tcase))).
  { simpl. repeat constructor; intros [n t]; unfold now;
      try destruct n; simpl; lia. }
  rewrite <- Hf in Hall. clear Hf.
  induction (data tc) as [| d l IH]; simpl in Hall; constructor;
    inversion Hall; auto.
Qed.

(** The mixed test case, run once and then again: the records hold 7, 9, 0
    and 7 ticks when the second run starts, and the second run writes the
    durations of the three tests that return (7, 4 and 7) and keeps the 0 of
    the test that fails. *)
Lemma run_time_nonneg_witness :
  let hooks := MixedTestCase.hooks in
  let tc := after_run MixedTestCase.tcase in
  (Forall (fun d => (0 <= time d)%Z) (data tc) /\
   Forall (fun d => clock_monotone (func d)) (data tc)) /\
  Forall (fun d => (0 <= time d)%Z) (data (after_run tc)) /\
  map (@time nat) (data tc) = [7; 9; 0; 7]%Z /\
  map (@time nat) (data (after_run tc)) = [7; 4; 0; 7]%Z.
Proof.
  cbv zeta.
  assert (Ht : Forall (fun d : TestData nat => (0 <= time d)%Z)
                 (data (@after_run nat MixedTestCase.hooks MixedTestCase.tcase))).
  { simpl. repeat constructor; simpl; lia. }
  assert (Hm : Forall (fun d : TestData nat => clock_monotone (func d))
                 (data (@after_run nat MixedTestCase.hooks MixedTestCase.tcase))).
  { apply mixed_clock_monotone. reflexivity. }
  split; [auto |]. split.
  - exact (@run_time_nonneg nat MixedTestCase.hooks
             (@after_run nat MixedTestCase.hooks MixedTestCase.tcase) Ht Hm).
  - split; reflexivity.
Defined.


Lemma skeleton_outcome_fixed (e : Env unit) :
  Forall (fun d => outcome_fixed (func d)) (data (SkeletonTestCase.tcase e)).
Proof.
  repeat constructor; intros s s'; reflexivity.
Qed.

Lemma rerun_same_outcomes_witness :
  let hooks := SkeletonTestCase.hooks in
  let tc := SkeletonTestCase.tcase (mkEnv tt 0%Z) in
  (returns_normally setup /\ returns_normally cleanup /\
   Forall (fun d => outcome_fixed (func d)) (data tc) /\
   Forall (fun d => signals_only (func d)) (data tc)) /\
  returned (after_run tc) = returned tc /\
  map (@passed unit) (data (after_run (after_run tc)))
  = map (@passed unit) (data (after_run tc)).
Proof.
  cbv zeta.
  destruct (skeleton_behaviours (mkEnv tt 0%Z)) as (Hs & Hc & Hall).
  pose proof (skeleton_outcome_fixed (mkEnv tt 0%Z)) as Hfix.
  split; [auto |].
  exact (@rerun_same_outcomes unit SkeletonTestCase.hooks
           (SkeletonTestCase.tcase (mkEnv tt 0%Z)) Hs Hc Hfix Hall).
Defined.

Lemma int_ne_lawful (x y : Z) : AssertTestCase.int_ne x y = false <-> x = y.
Proof.
  unfold AssertTestCase.int_ne. rewrite negb_false_iff. apply Z.eqb_eq.
Qed.

Lemma assert_array_equals_iff_eq_witness :
  (forall x y, AssertTestCase.int_ne x y = false <-> x = y) /\
  (assert_array_equals AssertTestCase.int_ne [1; 2; 3]%Z [1; 2; 3]%Z tt
   = (Normal tt, tt) <-> [1; 2; 3]%Z = [1; 2; 3]%Z) /\
  (assert_array_equals AssertTestCase.int_ne [1; 2; 3]%Z [1; 2; 3]%Z tt
   = (Throw TestFailedException, tt) <-> [1; 2; 3]%Z <> [1; 2; 3]%Z).
Proof.
  split; [exact int_ne_lawful |].
  exact (@assert_array_equals_iff_eq unit Z AssertTestCase.int_ne
           [1; 2; 3]%Z [1; 2; 3]%Z tt int_ne_lawful).
Defined.

Lemma export_outcome_visible_witness :
  let show := fun _ : Z => "0.5"%string in
  let d1 := mkTestData (@pass unit) "a" true 0 in
  let d2 := mkTestData (@fail unit) "a" false 0 in
  let x := mkExporter true EmptyString in
  let xx := mkXMLExporter true EmptyString in
  (style_colors = style_colors \/ style_colors = style_nocolors) /\
  passed d1 = true /\ passed d2 = false /\
  os (export_result style_colors show x d1)
  <> os (export_result style_colors show x d2) /\
  xml_os (xml_export_result show xx d1) <> xml_os (xml_export_result show xx d2).
Proof.
  cbv zeta. split; [now left |]. split; [reflexivity |]. split; [reflexivity |].
  apply (@export_outcome_visible unit (fun _ : Z => "0.5"%string) style_colors);
    [now left | reflexivity | reflexivity].
Defined.

Lemma run_exception_keeps_duration_witness :
  let hooks := TimingTestCase.hooks in
  let tc := TimingTestCase.tcase_once_ok in
  let tc1 := after_run tc in
  In (CallTest 0 105 (Throw TestFailedException) 108) (calls_of tc1) /\
  exists d d',
    nth_error (data tc1) 0 = Some d /\
    nth_error (data (after_run tc1)) 0 = Some d' /\
    time d' = time d /\ func d' = func d /\ name d' = name d /\
    (TestFailedException = TestFailedException -> passed d' = false) /\
    (TestFailedException = TestPassedException -> passed d' = true).
Proof.
  cbv zeta.
  assert (Hin : In (CallTest 0 105 (Throw TestFailedException) 108)
                  (@calls_of nat TimingTestCase.hooks
                     (@after_run nat TimingTestCase.hooks
                        TimingTestCase.tcase_once_ok))).
  { simpl. auto. }
  split; [exact Hin |].
  exact (@run_exception_keeps_duration nat TimingTestCase.hooks _ _ _ _ _ Hin).
Defined.
